(** * MathTools: dual-number differentiation and root finding

    A shallow embedding of [diff.py] (the [DualNumber] class, [Dlog] and
    [diff]) and of [root.py] ([bisection] and [newton]).

    Numbers.  A Python [int] or [float] is modelled by an exact rational
    ([Q]): rounding, overflow, infinities and NaN are not modelled, so every
    statement below is a statement in exact arithmetic.  A Python [complex]
    is a pair of rationals.  The tag of [scalar] is what [isinstance(_,
    complex)] inspects.  One operation is not idealised: the square
    [other.real ** 2] by which the two divisions of [DualNumber] divide.  On
    floats it is [0.0] when it underflows and an [OverflowError] when it
    overflows, which decides whether the division returns, so it is a
    parameter ([square]) of the divisions.

    Exceptions.  [raise E("msg")] is modelled by [Raise (E "msg")]; the
    message is kept because it tells the exceptions raised by the program's
    own guards from those raised by Python's arithmetic. *)

From Stdlib Require Import QArith Qabs Qpower ZArith Lia Lqa String Bool.

Open Scope string_scope.
Open Scope Q_scope.

(** ** Exceptions and outcomes *)

Inductive exn : Type :=
| ZeroDivisionError (msg : string)
| ValueError (msg : string)
| TypeError (msg : string)
| AttributeError (msg : string)
| RuntimeError (msg : string).

(** [OutOfFuel] is produced only by the fuel-bounded unfolding of the
    [while] loop of [bisection]; it is not a Python outcome. *)
Inductive outcome (A : Type) : Type :=
| Return (a : A)
| Raise (e : exn)
| OutOfFuel.

Arguments Return {A} a.
Arguments Raise {A} e.
Arguments OutOfFuel {A}.

Definition bind {A B : Type} (m : outcome A) (k : A -> outcome B) : outcome B :=
  match m with
  | Return a => k a
  | Raise e => Raise e
  | OutOfFuel => OutOfFuel
  end.

Notation "x <- m ;; k" := (bind m (fun x => k))
  (at level 61, m at next level, right associativity).
Notation "m ;;; k" := (bind m (fun _ => k))
  (at level 61, right associativity).

(** ** Scalars: Python [int]/[float] and [complex] *)

Inductive scalar : Type :=
| SReal (x : Q)
| SComplex (re im : Q).

Definition is_complex (s : scalar) : bool :=
  match s with SReal _ => false | SComplex _ _ => true end.

Definition re_part (s : scalar) : Q :=
  match s with SReal x => x | SComplex re _ => re end.

Definition im_part (s : scalar) : Q :=
  match s with SReal _ => 0 | SComplex _ im => im end.

(** Arithmetic stays real on real operands and is promoted to complex as
    soon as one operand is complex. *)
Definition s_add (a b : scalar) : scalar :=
  match a, b with
  | SReal x, SReal y => SReal (x + y)
  | _, _ => SComplex (re_part a + re_part b) (im_part a + im_part b)
  end.

Definition s_sub (a b : scalar) : scalar :=
  match a, b with
  | SReal x, SReal y => SReal (x - y)
  | _, _ => SComplex (re_part a - re_part b) (im_part a - im_part b)
  end.

Definition s_mul (a b : scalar) : scalar :=
  match a, b with
  | SReal x, SReal y => SReal (x * y)
  | _, _ =>
      SComplex (re_part a * re_part b - im_part a * im_part b)
               (re_part a * im_part b + im_part a * re_part b)
  end.

Definition s_neg (a : scalar) : scalar :=
  match a with
  | SReal x => SReal (- x)
  | SComplex re im => SComplex (- re) (- im)
  end.

(** [s == 0] *)
Definition s_eq0 (s : scalar) : bool :=
  match s with
  | SReal x => Qeq_bool x 0
  | SComplex re im => Qeq_bool re 0 && Qeq_bool im 0
  end.

(** The quotient, before Python's own zero test. *)
Definition s_quot (a b : scalar) : scalar :=
  match a, b with
  | SReal x, SReal y => SReal (x / y)
  | _, _ =>
      let n := re_part b * re_part b + im_part b * im_part b in
      SComplex ((re_part a * re_part b + im_part a * im_part b) / n)
               ((im_part a * re_part b - re_part a * im_part b) / n)
  end.

(** [a / b] on Python numbers raises [ZeroDivisionError] on a zero divisor. *)
Definition s_div (a b : scalar) : outcome scalar :=
  if s_eq0 b then Raise (ZeroDivisionError "division by zero")
  else Return (s_quot a b).

(** [s ** n] for a literal natural exponent. *)
Fixpoint s_pow_nat (s : scalar) (n : nat) : scalar :=
  match n with
  | O => SReal 1
  | S n' => s_mul s (s_pow_nat s n')
  end.

(** [s ** n] for an [int] exponent. *)
Definition s_pow (s : scalar) (n : Z) : outcome scalar :=
  if (0 <=? n)%Z then Return (s_pow_nat s (Z.to_nat n))
  else if s_eq0 s
       then Raise (ZeroDivisionError "zero to a negative power")
       else Return (s_quot (SReal 1) (s_pow_nat s (Z.to_nat (- n)))).

(** [s <= 0]: an order comparison is a [TypeError] on a complex. *)
Definition s_le0 (s : scalar) : outcome bool :=
  match s with
  | SReal x => Return (Qle_bool x 0)
  | SComplex _ _ =>
      Raise (TypeError "'<=' not supported between 'complex' and 'int'")
  end.

(** ** diff.py: class DualNumber *)

Record DualNumber : Type := mkDualNumber {
  real : scalar;  (* Function value *)
  dual : scalar   (* Derivative value *)
}.

(** A Python value as the program sees it: a plain number or a
    [DualNumber].  [isinstance(other, DualNumber)] is the test of the tag. *)
Inductive value : Type :=
| VScalar (k : scalar)
| VDual (d : DualNumber).

Definition __sub__ (self : DualNumber) (other : value) : DualNumber :=
  match other with
  | VDual o => mkDualNumber (s_sub (real self) (real o)) (s_sub (dual self) (dual o))
  | VScalar k => mkDualNumber (s_sub (real self) k) (dual self)
  end.

Definition __rsub__ := __sub__.

Definition __add__ (self : DualNumber) (other : value) : DualNumber :=
  match other with
  | VDual o => mkDualNumber (s_add (real self) (real o)) (s_add (dual self) (dual o))
  | VScalar k => mkDualNumber (s_add (real self) k) (dual self)
  end.

Definition __radd__ := __add__.

Definition __mul__ (self : DualNumber) (other : value) : DualNumber :=
  match other with
  | VDual o =>
      mkDualNumber (s_mul (real self) (real o))
                   (s_add (s_mul (dual self) (real o)) (s_mul (real self) (dual o)))
  | VScalar k => mkDualNumber (s_mul (real self) k) (s_mul (dual self) k)
  end.

Definition __rmul__ := __mul__.

(** [other == 0]: [DualNumber] defines no [__eq__], so a [DualNumber] is
    compared by identity and is never equal to the integer [0]. *)
Definition py_eq0 (other : value) : bool :=
  match other with
  | VScalar k => s_eq0 k
  | VDual _ => false
  end.

Definition division_by_zero : exn := ZeroDivisionError "Division by Zero".

Section Division.

(** [x ** 2] as Python evaluates it: exact on an [int]; on a [float] the
    rounded square, which is [0.0] for a small enough nonzero [x] and an
    [OverflowError] for a large enough one. *)
Variable square : scalar -> outcome scalar.

Definition __truediv__ (self : DualNumber) (other : value) : outcome DualNumber :=
  if py_eq0 other
     || match other with VDual o => s_eq0 (real o) | VScalar _ => false end
  then Raise division_by_zero
  else
    match other with
    | VDual o =>
        r <- s_div (real self) (real o) ;;
        c2 <- square (real o) ;;
        d <- s_div (s_sub (s_mul (dual self) (real o)) (s_mul (real self) (dual o)))
                   c2 ;;
        Return (mkDualNumber r d)
    | VScalar k =>
        r <- s_div (real self) k ;;
        d <- s_div (dual self) k ;;
        Return (mkDualNumber r d)
    end.

Definition __rtruediv__ (self : DualNumber) (other : value) : outcome DualNumber :=
  if s_eq0 (real self)
  then Raise division_by_zero
  else
    match other with
    | VDual o =>
        r <- s_div (real o) (real self) ;;
        c2 <- square (real self) ;;
        d <- s_div (s_sub (s_mul (dual o) (real self)) (s_mul (real o) (dual self)))
                   c2 ;;
        Return (mkDualNumber r d)
    | VScalar k =>
        r <- s_div k (real self) ;;
        c2 <- square (real self) ;;
        d <- s_div (s_mul (s_neg k) (dual self)) c2 ;;
        Return (mkDualNumber r d)
    end.

End Division.

(** A square as the doubles of IEEE 754 give it, for its underflow only: a
    real square below [2^-1075], half the smallest positive double, is [0.0].
    Rounding and overflow are left out. *)
Definition underflow_bound : Q := 1 # (2 ^ 1075).

Definition double_square (x : scalar) : outcome scalar :=
  match x with
  | SReal r =>
      if Qle_bool underflow_bound (r * r) then Return (SReal (r * r))
      else Return (SReal 0)
  | SComplex _ _ => Return (s_mul x x)
  end.

(** [for _ in range(m): result *= self], on the number of turns. *)
Fixpoint pow_loop (self : DualNumber) (turns : nat) (result : DualNumber) : DualNumber :=
  match turns with
  | O => result
  | S t => pow_loop self t (__mul__ result (VDual self))
  end.

(** [range(power - 1)] is empty when [power - 1 <= 0]. *)
Definition __pow__ (self : DualNumber) (power : Z) : DualNumber :=
  pow_loop self (Z.to_nat (power - 1)) (mkDualNumber (real self) (dual self)).

(** ** Python's binary operators on values

    [a - b] calls [a.__sub__(b)] when [a] is a [DualNumber]; when [a] is a
    plain number and [b] a [DualNumber], the number's own method gives up
    and Python calls the reflected method [b.__rsub__(a)]. *)

Definition py_add (a b : value) : value :=
  match a, b with
  | VScalar x, VScalar y => VScalar (s_add x y)
  | VDual d, _ => VDual (__add__ d b)
  | VScalar _, VDual d => VDual (__radd__ d a)
  end.

Definition py_sub (a b : value) : value :=
  match a, b with
  | VScalar x, VScalar y => VScalar (s_sub x y)
  | VDual d, _ => VDual (__sub__ d b)
  | VScalar _, VDual d => VDual (__rsub__ d a)
  end.

Definition py_mul (a b : value) : value :=
  match a, b with
  | VScalar x, VScalar y => VScalar (s_mul x y)
  | VDual d, _ => VDual (__mul__ d b)
  | VScalar _, VDual d => VDual (__rmul__ d a)
  end.

Definition py_truediv (square : scalar -> outcome scalar) (a b : value)
  : outcome value :=
  match a, b with
  | VScalar x, VScalar y => q <- s_div x y ;; Return (VScalar q)
  | VDual d, _ => q <- __truediv__ square d b ;; Return (VDual q)
  | VScalar _, VDual d => q <- __rtruediv__ square d a ;; Return (VDual q)
  end.

(** [a ** n] for an [int] exponent [n]. *)
Definition py_pow (a : value) (n : Z) : outcome value :=
  match a with
  | VScalar x => q <- s_pow x n ;; Return (VScalar q)
  | VDual d => Return (VDual (__pow__ d n))
  end.

(** A Python callable of one argument. *)
Definition callable : Type := value -> outcome value.

(** ** diff.py: Dlog and diff *)

Section Numpy.

(** [numpy.log], which the repository imports. *)
Variable log : scalar -> scalar.

Definition log_undefined : exn :=
  ValueError "Logarithm is undefined for non-positive values.".

(** [Dlog(dual_number)]: the constructor either raises or initialises the
    two attributes. *)
Definition Dlog (dual_number : DualNumber) : outcome DualNumber :=
  (if is_complex (real dual_number) then Return tt
   else
     neg <- s_le0 (real dual_number) ;;
     if neg then Raise log_undefined else Return tt) ;;;
  let l := log (real dual_number) in
  q <- s_div (dual dual_number) (real dual_number) ;;
  Return (mkDualNumber l q).

End Numpy.

(** [f(DualNumber(x_value, 1)).dual] *)
Definition diff (f : callable) (x_value : scalar) : outcome scalar :=
  r <- f (VDual (mkDualNumber x_value (SReal 1))) ;;
  match r with
  | VDual d => Return (dual d)
  | VScalar _ => Raise (AttributeError "object has no attribute 'dual'")
  end.

(** ** root.py *)

(** [x > y] on floats. *)
Definition Qgt_bool (x y : Q) : bool := negb (Qle_bool x y).

(** [v > 0] and [v < 0]: defined on real numbers only. *)
Definition py_gt0 (v : value) : outcome bool :=
  match v with
  | VScalar (SReal x) => Return (Qgt_bool x 0)
  | VScalar (SComplex _ _) =>
      Raise (TypeError "'>' not supported between 'complex' and 'int'")
  | VDual _ =>
      Raise (TypeError "'>' not supported between 'DualNumber' and 'int'")
  end.

Definition py_lt0 (v : value) : outcome bool :=
  match v with
  | VScalar (SReal x) => Return (Qgt_bool 0 x)
  | VScalar (SComplex _ _) =>
      Raise (TypeError "'<' not supported between 'complex' and 'int'")
  | VDual _ =>
      Raise (TypeError "'<' not supported between 'DualNumber' and 'int'")
  end.

(** [abs(v) <= epsilon].  The modulus of a complex is a square root; the
    comparison is decided on the squares, which is the same test in exact
    arithmetic.  [DualNumber] has no [__abs__]. *)
Definition abs_le (v : value) (epsilon : Q) : outcome bool :=
  match v with
  | VScalar (SReal x) => Return (Qle_bool (Qabs x) epsilon)
  | VScalar (SComplex re im) =>
      Return (Qle_bool 0 epsilon
              && Qle_bool (re * re + im * im) (epsilon * epsilon))
  | VDual _ => Raise (TypeError "bad operand type for abs(): 'DualNumber'")
  end.

Definition call (f : callable) (x : Q) : outcome value := f (VScalar (SReal x)).

Definition bracket_error : exn :=
  ValueError "Function values at endpoints must have opposite signs.".

(** What one turn of the [while] loop of [bisection] does: [return p], or
    go on with a new bracket. *)
Inductive loop_ctl : Type :=
| Break (p : Q)
| Continue (a b : Q).

(** The body of the [while] loop (lines 22 to 28). *)
Definition bisection_body (f : callable) (a b epsilon : Q) : outcome loop_ctl :=
  let p := (a + b) / 2 in                       (* Midpoint *)
  fp <- call f p ;;
  found <- abs_le fp epsilon ;;
  if found then Return (Break p)                (* Found root *)
  else
    fa <- call f a ;;
    fp' <- call f p ;;
    left <- py_lt0 (py_mul fa fp') ;;
    if left then Return (Continue a p)          (* Root is in [a, p] *)
    else Return (Continue p b).                 (* Root is in [p, b] *)

(** The [while] loop and the final [return], unfolded at most [fuel] times.
    The first component counts the turns of the loop that were entered. *)
Fixpoint bisection_while (fuel : nat) (f : callable) (a b epsilon : Q)
  : nat * outcome Q :=
  if Qgt_bool (Qabs (b - a)) epsilon then
    match fuel with
    | O => (O, OutOfFuel)
    | S fuel' =>
        match bisection_body f a b epsilon with
        | Return (Continue a' b') =>
            let (n, r) := bisection_while fuel' f a' b' epsilon in (S n, r)
        | Return (Break p) => (1%nat, Return p)
        | Raise e => (1%nat, Raise e)
        | OutOfFuel => (1%nat, OutOfFuel)
        end
    end
  else (O, Return ((a + b) / 2)).               (* Return best approximation *)

(** [f(a) * f(b) > 0] *)
Definition same_sign (f : callable) (a b : Q) : outcome bool :=
  fa <- call f a ;;
  fb <- call f b ;;
  py_gt0 (py_mul fa fb).

Definition bisection_run (fuel : nat) (f : callable) (a b epsilon : Q)
  : nat * outcome Q :=
  match same_sign f a b with
  | Return true => (O, Raise bracket_error)
  | Return false => bisection_while fuel f a b epsilon
  | Raise e => (O, Raise e)
  | OutOfFuel => (O, OutOfFuel)
  end.

Definition bisection (fuel : nat) (f : callable) (a b epsilon : Q) : outcome Q :=
  snd (bisection_run fuel f a b epsilon).

(** The number of turns of the loop that [bisection] entered. *)
Definition bisection_iterations (fuel : nat) (f : callable) (a b epsilon : Q) : nat :=
  fst (bisection_run fuel f a b epsilon).

Definition not_converged : exn :=
  RuntimeError "Newton's method did not converge.".

(** [for _ in range(max_iter): ...] followed by the final [raise], on the
    number of turns left. *)
Fixpoint newton_loop (f : callable) (epsilon : Q) (turns : nat) (x : scalar)
  : outcome scalar :=
  match turns with
  | O => Raise not_converged
  | S turns' =>
      fx <- f (VScalar x) ;;
      dfx <- diff f x ;;
      found <- abs_le fx epsilon ;;
      if found then Return x                    (* Root found *)
      else if s_eq0 dfx then                    (* Avoid division by zero *)
        newton_loop f epsilon turns' (s_add x (SReal epsilon))
      else
        match fx with
        | VScalar k =>
            q <- s_div k dfx ;;
            newton_loop f epsilon turns' (s_sub x q)   (* Newton's update *)
        | VDual _ =>
            (* not reached: [abs(fx)] has raised *)
            Raise (TypeError "bad operand type for abs(): 'DualNumber'")
        end
  end.

Definition default_max_iter : Z := 100.

(** [newton(f, epsilon, x0, max_iter)]; [fuel] bounds the loop of the
    [bisection] call that estimates the root when [x0] is [None]. *)
Definition newton (fuel : nat) (f : callable) (epsilon : Q)
    (x0 : option scalar) (max_iter : Z) : outcome scalar :=
  x <- match x0 with
       | None =>
           p <- bisection fuel f (- (10000000000 # 1)) (10000000000 # 1) (1 # 100) ;;
           Return (SReal p)
       | Some x => Return x
       end ;;
  newton_loop f epsilon (Z.to_nat max_iter) x.

(** A function of the reals as a Python callable on floats. *)
Definition real_fun (g : Q -> Q) : callable :=
  fun v =>
    match v with
    | VScalar (SReal x) => Return (VScalar (SReal (g x)))
    | _ => Raise (TypeError "a float is expected")
    end.

(** ** Vocabulary of the statements *)

(** The [real] attribute of a divisor; a plain number is its own value. *)
Definition real_component (v : value) : scalar :=
  match v with
  | VScalar k => k
  | VDual d => real d
  end.

(** The state of the loop of [x ** n] at a real seed [(a, 1)]: after [j]
    multiplications the value is [a^(j+1)] and the derivative
    [(j+1) * a^j]. *)
Definition pow_state (a : Q) (j : nat) (r : DualNumber) : Prop :=
  exists x y, r = mkDualNumber (SReal x) (SReal y)
              /\ x == a * a ^ Z.of_nat j
              /\ y == inject_Z (Z.of_nat (S j)) * a ^ Z.of_nat j.

(** The bracket that a turn of the loop leaves when it goes on: [b = p]
    when [f(a) * f(p) < 0], and [a = p] otherwise, [p] being the midpoint. *)
Definition halve (g : Q -> Q) (ab : Q * Q) : Q * Q :=
  let p := (fst ab + snd ab) / 2 in
  if Qgt_bool 0 (g (fst ab) * g p) then (fst ab, p) else (p, snd ab).

(** The bracket after [i] such turns. *)
Fixpoint bracket_after (g : Q -> Q) (i : nat) (ab : Q * Q) : Q * Q :=
  match i with
  | O => ab
  | S i' => bracket_after g i' (halve g ab)
  end.

Definition midpoint (ab : Q * Q) : Q := (fst ab + snd ab) / 2.

Definition width (ab : Q * Q) : Q := Qabs (snd ab - fst ab).

(** Turn [i] is entered and goes on: the bracket is still wider than
    [epsilon] and [|f|] at its midpoint is above [epsilon]. *)
Definition goes_on (g : Q -> Q) (epsilon : Q) (ab : Q * Q) (i : nat) : Prop :=
  epsilon < width (bracket_after g i ab)
  /\ epsilon < Qabs (g (midpoint (bracket_after g i ab))).

(** What [bisection] returns after [k] turns from the bracket [ab]: the
    turns before the last all go on, and either the last turn is entered
    and finds [|f(p)| <= epsilon] at the midpoint [p] of its bracket, or the
    bracket left by [k] turns is no wider than [epsilon] and [p] is its
    midpoint. *)
Definition bisection_outcome
    (g : Q -> Q) (epsilon : Q) (ab : Q * Q) (k : nat) (p : Q) : Prop :=
  (exists j, k = S j
             /\ (forall i, (i < j)%nat -> goes_on g epsilon ab i)
             /\ epsilon < width (bracket_after g j ab)
             /\ p = midpoint (bracket_after g j ab)
             /\ Qabs (g p) <= epsilon)
  \/ ((forall i, (i < k)%nat -> goes_on g epsilon ab i)
      /\ width (bracket_after g k ab) <= epsilon
      /\ p = midpoint (bracket_after g k ab)).

(** ** Functions used as inputs *)

(** [lambda x: x] *)
Definition identity (x : Q) : Q := x.

(** [lambda x: x * x - 8] *)
Definition square_minus_8 (x : Q) : Q := x * x - 8.

(** [lambda x: x * x - 4] *)
Definition square_minus_4 : callable :=
  fun x => Return (py_sub (py_mul x x) (VScalar (SReal 4))).

(** [lambda x: x / x ** 0]: on a float [x ** 0] is [1]; on a DualNumber
    [x ** 0] is [x] itself. *)
Definition over_zeroth_power (square : scalar -> outcome scalar) : callable :=
  fun x => d <- py_pow x 0 ;; py_truediv square x d.

(** [lambda x: -2 * x * x + 2] *)
Definition two_minus_two_squares : callable :=
  fun x =>
    Return (py_add (py_mul (py_mul (VScalar (SReal (-2))) x) x)
                   (VScalar (SReal 2))).

(** [lambda x: x * x + 1] *)
Definition square_plus_1 : callable :=
  fun x => Return (py_add (py_mul x x) (VScalar (SReal 1))).

(** ** diff.py: the other elementary functions *)

Section Elementary.

(** [numpy.exp], [cos], [sin], [absolute] and [sign], which the repository
    imports. *)
Variables exp cos sin absolute sign : scalar -> scalar.

(** [dual * sign(real)]: [sign] returns a numpy number of fixed width, and
    the product of a Python number by it is numpy's, which raises
    [OverflowError] on a Python [int] that does not fit. *)
Variable times_sign : scalar -> scalar -> outcome scalar.

Definition Dexp (dual_number : DualNumber) : DualNumber :=
  mkDualNumber (exp (real dual_number))
               (s_mul (dual dual_number) (exp (real dual_number))).

Definition Dcos (dual_number : DualNumber) : DualNumber :=
  mkDualNumber (cos (real dual_number))
               (s_mul (s_neg (dual dual_number)) (sin (real dual_number))).

Definition Dsin (dual_number : DualNumber) : DualNumber :=
  mkDualNumber (sin (real dual_number))
               (s_mul (dual dual_number) (cos (real dual_number))).

Definition abs_undefined_at_zero : exn :=
  ValueError "Derivative of Absolute value is undefined at 0".

Definition abs_of_complex : exn :=
  ValueError "Complex Absolute Value is nowhere differentiable".

Definition Dabs (dual_number : DualNumber) : outcome DualNumber :=
  if s_eq0 (real dual_number) then Raise abs_undefined_at_zero
  else if is_complex (real dual_number) then Raise abs_of_complex
  else
    let m := absolute (real dual_number) in
    d <- times_sign (dual dual_number) (sign (real dual_number)) ;;
    Return (mkDualNumber m d).

End Elementary.

(** [lambda x: D(x)] for one of the constructors [Dexp], [Dcos], [Dsin]:
    on a plain number the constructor reads [dual_number.dual], which a
    number does not have. *)
Definition constructor_call (D : DualNumber -> DualNumber) : callable :=
  fun v =>
    match v with
    | VDual d => Return (VDual (D d))
    | VScalar _ => Raise (AttributeError "object has no attribute 'dual'")
    end.

(** ** root.py: the example function *)

(** [foo(x) = -1000 + x**2 - x**3 - 1] *)
Definition foo : callable :=
  fun x =>
    x2 <- py_pow x 2 ;;
    x3 <- py_pow x 3 ;;
    Return (py_sub (py_sub (py_add (VScalar (SReal (-1000))) x2) x3)
                   (VScalar (SReal 1))).

(** ** More vocabulary *)

(** Equality of two numbers as numbers, the [==] of Python: a real and a
    complex with a zero imaginary part are equal. *)
Definition s_eqv (a b : scalar) : Prop :=
  re_part a == re_part b /\ im_part a == im_part b.

Definition d_eqv (x y : DualNumber) : Prop :=
  s_eqv (real x) (real y) /\ s_eqv (dual x) (dual y).

(** [p] lies between [a] and [b], whichever is the smaller. *)
Definition between (a b p : Q) : Prop :=
  (a <= p /\ p <= b) \/ (b <= p /\ p <= a).

(** The state of the loop of [x ** n] at a real dual number [(a, b)]: after
    [j] multiplications the value is [a^(j+1)] and the derivative
    [(j+1) * a^j * b]. *)
Definition pow_state_at (a b : Q) (j : nat) (r : DualNumber) : Prop :=
  exists x y, r = mkDualNumber (SReal x) (SReal y)
              /\ x == a * a ^ Z.of_nat j
              /\ y == inject_Z (Z.of_nat (S j)) * a ^ Z.of_nat j * b.

(** ** More functions used as inputs *)

(** [lambda x: m * x + c] *)
Definition linear (m c : Q) : callable :=
  fun x => Return (py_add (py_mul (VScalar (SReal m)) x) (VScalar (SReal c))).

(** [lambda x: 1 / x] *)
Definition reciprocal (square : scalar -> outcome scalar) : callable :=
  fun x => py_truediv square (VScalar (SReal 1)) x.

(** * Properties *)

(** ** Helper lemmas on rationals and scalars *)

Lemma Qeq_bool_false (x y : Q) : Qeq_bool x y = false <-> ~ x == y.
Proof.
  split.
  - intros H E. apply Qeq_bool_iff in E. congruence.
  - intros H. destruct (Qeq_bool x y) eqn:E; [|reflexivity].
    apply Qeq_bool_iff in E. contradiction.
Qed.

Lemma Qle_bool_false (x y : Q) : Qle_bool x y = false <-> y < x.
Proof.
  split.
  - intros H. apply Qnot_le_lt. intros L. apply Qle_bool_iff in L. congruence.
  - intros H. destruct (Qle_bool x y) eqn:E; [|reflexivity].
    apply Qle_bool_iff in E. lra.
Qed.

Lemma Qgt_bool_true (x y : Q) : Qgt_bool x y = true <-> y < x.
Proof.
  unfold Qgt_bool. rewrite negb_true_iff. apply Qle_bool_false.
Qed.

Lemma Qgt_bool_false (x y : Q) : Qgt_bool x y = false <-> x <= y.
Proof.
  unfold Qgt_bool. rewrite negb_false_iff. apply Qle_bool_iff.
Qed.

Lemma Qhalf (w : Q) : w / 2 == w * (1 # 2).
Proof. reflexivity. Qed.

Lemma Qsquare_zero (x : Q) : x * x == 0 -> x == 0.
Proof.
  intros H. destruct (Qmult_integral _ _ H); assumption.
Qed.

(** ** The arithmetic of DualNumber *)

(** The reflected subtraction is the method [__sub__] itself: [k - d]
    computes [d - k]. *)
Lemma py_sub_scalar_dual (k a b : scalar) :
  py_sub (VScalar k) (VDual (mkDualNumber a b))
  = VDual (mkDualNumber (s_sub a k) b).
Proof. reflexivity. Qed.

(** C2, at the input [5 - DualNumber(3, 1)]: the rule [(k - a, -b)] gives
    [(2, -1)]; the program returns [(3 - 5, 1)], whose value is [-2] and
    whose derivative has the wrong sign. *)
Theorem rsub_returns_self_minus_scalar :
  py_sub (VScalar (SReal 5)) (VDual (mkDualNumber (SReal 3) (SReal 1)))
  = VDual (mkDualNumber (SReal (3 - 5)) (SReal 1))
  /\ ~ 3 - 5 == 5 - 3
  /\ ~ 1 == - (1).
Proof.
  split; [reflexivity | split; intros H; discriminate H].
Qed.

(** C10: for every exponent [n <= 1] (one, zero or negative) the loop of
    [__pow__] does not run and the result is the dual number itself. *)
Theorem pow_le_one_is_self (d : DualNumber) (n : Z) :
  (n <= 1)%Z -> __pow__ d n = d.
Proof.
  intros H. unfold __pow__.
  replace (Z.to_nat (n - 1)) with O by lia.
  destruct d; reflexivity.
Qed.

Lemma pow_le_one_is_self_witness :
  (-3 <= 1)%Z
  /\ __pow__ (mkDualNumber (SReal 2) (SReal 1)) (-3)
     = mkDualNumber (SReal 2) (SReal 1).
Proof.
  split; [lia | apply (pow_le_one_is_self _ (-3)%Z); lia].
Defined.

(** C3 (amended): a division whose divisor has a zero [real] component
    raises the program's own [ZeroDivisionError("Division by Zero")] before
    any arithmetic, whatever the other components and the square are, for
    [__truediv__] (DualNumber or plain divisor) and for [__rtruediv__].  When
    that component is not zero the guard raises nothing: the division by a
    plain number returns; the division by a DualNumber and the reflected
    division go on to the square [real ** 2], return when its value is not
    zero, and raise Python's own [ZeroDivisionError] when its value is
    zero. *)
Theorem division_by_zero_guard (square : scalar -> outcome scalar) :
  (forall self other,
      s_eq0 (real_component other) = true ->
      __truediv__ square self other = Raise division_by_zero)
  /\ (forall self other,
      s_eq0 (real self) = true ->
      __rtruediv__ square self other = Raise division_by_zero)
  /\ (forall self k,
      s_eq0 k = false ->
      __truediv__ square self (VScalar k)
      = Return (mkDualNumber (s_quot (real self) k) (s_quot (dual self) k)))
  /\ (forall self o,
      s_eq0 (real o) = false ->
      __truediv__ square self (VDual o)
      = (c2 <- square (real o) ;;
         if s_eq0 c2 then Raise (ZeroDivisionError "division by zero")
         else Return (mkDualNumber
                        (s_quot (real self) (real o))
                        (s_quot (s_sub (s_mul (dual self) (real o))
                                       (s_mul (real self) (dual o))) c2))))
  /\ (forall self other,
      s_eq0 (real self) = false ->
      __rtruediv__ square self other
      = (c2 <- square (real self) ;;
         if s_eq0 c2 then Raise (ZeroDivisionError "division by zero")
         else Return
                match other with
                | VDual o =>
                    mkDualNumber
                      (s_quot (real o) (real self))
                      (s_quot (s_sub (s_mul (dual o) (real self))
                                     (s_mul (real o) (dual self))) c2)
                | VScalar k =>
                    mkDualNumber
                      (s_quot k (real self))
                      (s_quot (s_mul (s_neg k) (dual self)) c2)
                end)).
Proof.
  repeat split.
  - intros self [k | o] H; unfold __truediv__; simpl in *; rewrite H; reflexivity.
  - intros self other H. unfold __rtruediv__. rewrite H. reflexivity.
  - intros self k H. unfold __truediv__, s_div. cbn [py_eq0 orb].
    rewrite H. reflexivity.
  - intros self o H. unfold __truediv__, s_div. cbn [py_eq0 orb].
    rewrite H. cbn [bind].
    destruct (square (real o)) as [c2 | e |]; cbn [bind]; try reflexivity.
    destruct (s_eq0 c2); reflexivity.
  - intros self other H. unfold __rtruediv__, s_div. rewrite H.
    destruct other as [k | o]; cbn [bind];
      (destruct (square (real self)) as [c2 | e |]; cbn [bind];
       try reflexivity; destruct (s_eq0 c2); reflexivity).
Qed.

Lemma division_by_zero_guard_witness :
  s_eq0 (real_component (VDual (mkDualNumber (SReal 0) (SReal 1)))) = true
  /\ __truediv__ double_square (mkDualNumber (SReal 5) (SReal 1))
                 (VDual (mkDualNumber (SReal 0) (SReal 1)))
     = Raise division_by_zero.
Proof.
  split; [reflexivity |].
  apply (proj1 (division_by_zero_guard double_square)); reflexivity.
Defined.

(** C3 as stated fails: [DualNumber(1, 1) / DualNumber(1e-200, 1)] has a
    divisor whose [real] component is not zero, passes the guard, and
    raises a [ZeroDivisionError] all the same, because the square of
    [1e-200] is [0.0]. *)
Lemma division_by_zero_after_guard :
  s_eq0 (real_component
           (VDual (mkDualNumber (SReal (1 # 10 ^ 200)) (SReal 1)))) = false
  /\ __truediv__ double_square (mkDualNumber (SReal 1) (SReal 1))
                 (VDual (mkDualNumber (SReal (1 # 10 ^ 200)) (SReal 1)))
     = Raise (ZeroDivisionError "division by zero").
Proof.
  split; vm_compute; reflexivity.
Qed.

(** ** Powers and their derivative *)

Lemma Qpower_succ_nat (a : Q) (j : nat) :
  a ^ Z.of_nat (S j) == a * a ^ Z.of_nat j.
Proof.
  rewrite Nat2Z.inj_succ, <- Z.add_1_r, Qpower_plus' by lia.
  simpl. ring.
Qed.

(** One more turn of the loop is one more multiplication by [self]. *)
Lemma pow_loop_succ (self : DualNumber) (t : nat) (result : DualNumber) :
  pow_loop self (S t) result = __mul__ (pow_loop self t result) (VDual self).
Proof.
  revert result. induction t as [| t IH]; intros result.
  - reflexivity.
  - change (pow_loop self (S (S t)) result)
      with (pow_loop self (S t) (__mul__ result (VDual self))).
    rewrite IH. reflexivity.
Qed.

Lemma pow_state_step (a : Q) (j : nat) (r : DualNumber) :
  pow_state a j r ->
  pow_state a (S j) (__mul__ r (VDual (mkDualNumber (SReal a) (SReal 1)))).
Proof.
  intros (x & y & -> & Hx & Hy).
  exists (x * a), (y * a + x * 1). split; [reflexivity|].
  rewrite (Qpower_succ_nat a j), Hx, Hy.
  rewrite (Nat2Z.inj_succ (S j)), <- Z.add_1_r, inject_Z_plus.
  split; ring.
Qed.

Lemma pow_loop_state (a : Q) (t j : nat) (r : DualNumber) :
  pow_state a j r ->
  pow_state a (t + j) (pow_loop (mkDualNumber (SReal a) (SReal 1)) t r).
Proof.
  revert j r. induction t as [| t IH]; intros j r H.
  - exact H.
  - simpl pow_loop. replace (S t + j)%nat with (t + S j)%nat by lia.
    apply IH, pow_state_step, H.
Qed.

(** The derivative of [x ** n] at a real point, for every [n >= 1]. *)
Lemma diff_pow_real (n : Z) (a : Q) :
  (1 <= n)%Z ->
  exists d, diff (fun x => py_pow x n) (SReal a) = Return (SReal d)
            /\ d == inject_Z n * a ^ (n - 1).
Proof.
  intros Hn. unfold diff, py_pow, __pow__. cbn [bind real dual].
  destruct (pow_loop_state a (Z.to_nat (n - 1)) 0
              (mkDualNumber (SReal a) (SReal 1))) as (x & y & E & _ & Hy).
  { exists a, 1. split; [reflexivity|]. simpl. split; ring. }
  rewrite E. exists y. split; [reflexivity|].
  rewrite Hy. rewrite Nat.add_0_r, Nat2Z.inj_succ, Z2Nat.id by lia.
  replace (Z.succ (n - 1)) with n by lia. reflexivity.
Qed.

(** C1: for every integer [n >= 1] and every real [a <> 0],
    [diff(lambda x: x ** n, a)] is [n * a^(n-1)]; [x ** 1] is the dual number
    itself and each further unit of the exponent is one more multiplication
    by it, so [x ** n] is [n - 1] successive self-multiplications. *)
Theorem diff_pow (n : Z) (a : Q) :
  (1 <= n)%Z ->
  ~ a == 0 ->
  (exists d, diff (fun x => py_pow x n) (SReal a) = Return (SReal d)
             /\ d == inject_Z n * a ^ (n - 1))
  /\ (forall x : DualNumber, __pow__ x 1 = x)
  /\ (forall (x : DualNumber) (m : Z),
         (1 <= m)%Z -> __pow__ x (m + 1) = __mul__ (__pow__ x m) (VDual x)).
Proof.
  intros Hn _. split; [apply diff_pow_real, Hn | split].
  - intros [r d]. reflexivity.
  - intros x m Hm. unfold __pow__.
    replace (Z.to_nat (m + 1 - 1)) with (S (Z.to_nat (m - 1))) by lia.
    apply pow_loop_succ.
Qed.

Lemma diff_pow_witness :
  (1 <= 3)%Z /\ ~ 2 == 0
  /\ (exists d, diff (fun x => py_pow x 3) (SReal 2) = Return (SReal d)
                /\ d == inject_Z 3 * 2 ^ (3 - 1)).
Proof.
  split; [lia | split; [intros H; discriminate H |]].
  apply (diff_pow 3 2); [lia | intros H; discriminate H].
Defined.

(** ** Dlog *)

Section DlogFacts.

Variable log : scalar -> scalar.

(** C4: [Dlog] raises its [ValueError] when the value is real and not
    positive, and raises a [ValueError] in no other case; on a positive
    real [a] it returns [(log a, b / a)]; a complex value passes no test of
    its own: a nonzero one gives [(log a, b / a)], and a complex zero
    reaches the division, where Python raises its [ZeroDivisionError]. *)
Theorem Dlog_domain :
  (forall d a, real d = SReal a -> a <= 0 -> Dlog log d = Raise log_undefined)
  /\ (forall d msg, Dlog log d = Raise (ValueError msg) ->
                    exists a, real d = SReal a /\ a <= 0)
  /\ (forall a b, 0 < a ->
        Dlog log (mkDualNumber (SReal a) b)
        = Return (mkDualNumber (log (SReal a)) (s_quot b (SReal a))))
  /\ (forall re im b, s_eq0 (SComplex re im) = false ->
        Dlog log (mkDualNumber (SComplex re im) b)
        = Return (mkDualNumber (log (SComplex re im))
                               (s_quot b (SComplex re im))))
  /\ (forall re im b, s_eq0 (SComplex re im) = true ->
        Dlog log (mkDualNumber (SComplex re im) b)
        = Raise (ZeroDivisionError "division by zero")).
Proof.
  repeat split.
  - intros [r b] a E Ha. simpl in E. subst r. unfold Dlog. simpl.
    apply Qle_bool_iff in Ha. rewrite Ha. reflexivity.
  - intros [[a | re im] b] msg; unfold Dlog, s_div; simpl.
    + destruct (Qle_bool a 0) eqn:E; simpl.
      * intros _. exists a. split; [reflexivity | apply Qle_bool_iff, E].
      * destruct (Qeq_bool a 0); simpl; discriminate.
    + destruct (Qeq_bool re 0 && Qeq_bool im 0); simpl; discriminate.
  - intros a b Ha. unfold Dlog, s_div. simpl.
    assert (E1 : Qle_bool a 0 = false) by (apply Qle_bool_false, Ha).
    assert (E2 : Qeq_bool a 0 = false) by (apply Qeq_bool_false; lra).
    rewrite E1, E2. reflexivity.
  - intros re im b H. unfold Dlog, s_div. cbn [real dual is_complex bind].
    rewrite H. reflexivity.
  - intros re im b H. unfold Dlog, s_div. cbn [real dual is_complex bind].
    rewrite H. reflexivity.
Qed.

End DlogFacts.

Lemma Dlog_domain_witness :
  -1 <= 0
  /\ Dlog (fun s => s) (mkDualNumber (SReal (-1)) (SReal 1)) = Raise log_undefined.
Proof.
  split; [vm_compute; discriminate |].
  apply (proj1 (Dlog_domain (fun s => s)) (mkDualNumber (SReal (-1)) (SReal 1)) (-1));
    [reflexivity | vm_compute; discriminate].
Defined.

(** ** Bisection on a real function *)

Section Bisection.

Variable g : Q -> Q.
Variable epsilon : Q.

(** The body of the loop, read on a real function. *)
Lemma bisection_body_real (a b : Q) :
  bisection_body (real_fun g) a b epsilon
  = let p := (a + b) / 2 in
    if Qle_bool (Qabs (g p)) epsilon then Return (Break p)
    else if Qgt_bool 0 (g a * g p) then Return (Continue a p)
         else Return (Continue p b).
Proof. reflexivity. Qed.

Lemma same_sign_real (a b : Q) :
  same_sign (real_fun g) a b = Return (Qgt_bool (g a * g b) 0).
Proof. reflexivity. Qed.

(** A turn that goes on keeps one endpoint and moves the other to the
    midpoint. *)
Lemma bisection_body_continue (a b a' b' : Q) :
  bisection_body (real_fun g) a b epsilon = Return (Continue a' b') ->
  epsilon < Qabs (g ((a + b) / 2))
  /\ ((a' = a /\ b' = (a + b) / 2 /\ g a * g ((a + b) / 2) < 0)
      \/ (a' = (a + b) / 2 /\ b' = b /\ 0 <= g a * g ((a + b) / 2))).
Proof.
  rewrite bisection_body_real. cbv zeta.
  destruct (Qle_bool (Qabs (g ((a + b) / 2))) epsilon) eqn:E1; [discriminate|].
  apply Qle_bool_false in E1. intros H. split; [exact E1|].
  destruct (Qgt_bool 0 (g a * g ((a + b) / 2))) eqn:E2;
    inversion H; subst a' b'.
  - left. apply Qgt_bool_true in E2. auto.
  - right. apply Qgt_bool_false in E2. auto.
Qed.

(** Each turn halves the width of the bracket. *)
Lemma bisection_body_halves (a b a' b' : Q) :
  bisection_body (real_fun g) a b epsilon = Return (Continue a' b') ->
  Qabs (b' - a') == Qabs (b - a) / 2.
Proof.
  intros H. apply bisection_body_continue in H.
  destruct H as [_ [(-> & -> & _) | (-> & -> & _)]].
  - setoid_replace ((a + b) / 2 - a) with ((b - a) * (1 # 2)) by field.
    rewrite Qabs_Qmult. reflexivity.
  - setoid_replace (b - (a + b) / 2) with ((b - a) * (1 # 2)) by field.
    rewrite Qabs_Qmult. reflexivity.
Qed.

(** The sign condition survives a turn when [f(a)] is not zero. *)
Lemma bisection_body_keeps_bracket (a b a' b' : Q) :
  ~ g a == 0 ->
  g a * g b <= 0 ->
  bisection_body (real_fun g) a b epsilon = Return (Continue a' b') ->
  g a' * g b' <= 0.
Proof.
  intros Ha Hab H. apply bisection_body_continue in H.
  destruct H as [_ [(-> & -> & Hp) | (-> & -> & Hp)]].
  - lra.
  - set (p := (a + b) / 2) in *.
    assert (Hsq : 0 < g a * g a).
    { destruct (Qlt_le_dec 0 (g a * g a)) as [L | L]; [exact L|].
      exfalso. apply Ha, Qsquare_zero. nra. }
    destruct (Qlt_le_dec 0 (g p * g b)) as [L | L]; [|exact L].
    exfalso.
    assert (0 < (g a * g a) * (g p * g b)) by (apply Qmult_lt_0_compat; assumption).
    assert ((g a * g p) * (- (g a * g b)) >= 0)
      by (apply Qmult_le_0_compat; lra).
    nra.
Qed.

(** The loop itself raises nothing on a real function. *)
Lemma bisection_while_no_raise (fuel : nat) (a b : Q) (e : exn) :
  snd (bisection_while fuel (real_fun g) a b epsilon) <> Raise e.
Proof.
  revert a b. induction fuel as [| fuel IH]; intros a b;
    cbn [bisection_while].
  - destruct (Qgt_bool (Qabs (b - a)) epsilon); cbn [snd]; discriminate.
  - destruct (Qgt_bool (Qabs (b - a)) epsilon); cbn [snd]; [|discriminate].
    rewrite bisection_body_real. cbv zeta.
    destruct (Qle_bool (Qabs (g ((a + b) / 2))) epsilon);
      [cbn [snd]; discriminate|].
    destruct (Qgt_bool 0 (g a * g ((a + b) / 2))).
    + specialize (IH a ((a + b) / 2)).
      destruct (bisection_while fuel (real_fun g) a ((a + b) / 2) epsilon). exact IH.
    + specialize (IH ((a + b) / 2) b).
      destruct (bisection_while fuel (real_fun g) ((a + b) / 2) b epsilon). exact IH.
Qed.

End Bisection.

(** ** Termination of the bisection loop *)

Lemma Qle_nat_ceiling (q : Q) : q <= inject_Z (Z.of_nat (Z.to_nat (Qnum q))).
Proof.
  destruct q as [num den]. unfold Qle, inject_Z. simpl.
  destruct (Z_le_gt_dec 0 num) as [L | L].
  - rewrite Z2Nat.id by exact L. nia.
  - replace (Z.to_nat num) with O by lia. simpl. lia.
Qed.

Lemma Qle_nat_pow2 (m : nat) : inject_Z (Z.of_nat m) <= 2 ^ Z.of_nat m.
Proof.
  change 2 with (inject_Z 2). rewrite <- Zpower_Qpower by lia.
  rewrite <- Zle_Qle.
  pose proof (Z.pow_gt_lin_r 2 (Z.of_nat m)). lia.
Qed.

(** Some power of two times [epsilon] covers any width. *)
Lemma width_covered (w epsilon : Q) :
  0 < epsilon -> exists n : nat, w <= 2 ^ Z.of_nat n * epsilon.
Proof.
  intros He. exists (Z.to_nat (Qnum (w / epsilon))).
  assert (H : w / epsilon <= 2 ^ Z.of_nat (Z.to_nat (Qnum (w / epsilon)))).
  { eapply Qle_trans; [apply Qle_nat_ceiling | apply Qle_nat_pow2]. }
  setoid_replace w with (w / epsilon * epsilon) at 1 by (field; lra).
  apply Qmult_le_compat_r; [exact H | lra].
Qed.

Lemma bisection_while_exit (fuel : nat) (f : callable) (a b epsilon : Q) :
  Qabs (b - a) <= epsilon ->
  bisection_while fuel f a b epsilon = (O, Return ((a + b) / 2)).
Proof.
  intros H. apply Qgt_bool_false in H.
  destruct fuel; cbn [bisection_while]; rewrite H; reflexivity.
Qed.

Lemma bisection_while_enter (fuel : nat) (f : callable) (a b epsilon : Q) :
  epsilon < Qabs (b - a) ->
  bisection_while (S fuel) f a b epsilon
  = match bisection_body f a b epsilon with
    | Return (Continue a' b') =>
        let (n, r) := bisection_while fuel f a' b' epsilon in (S n, r)
    | Return (Break p) => (1%nat, Return p)
    | Raise e => (1%nat, Raise e)
    | OutOfFuel => (1%nat, OutOfFuel)
    end.
Proof.
  intros H. apply Qgt_bool_true in H.
  cbn [bisection_while]. rewrite H. reflexivity.
Qed.

(** A turn that goes on leaves the bracket that [halve] describes. *)
Lemma bisection_body_halve (g : Q -> Q) (epsilon a b a' b' : Q) :
  bisection_body (real_fun g) a b epsilon = Return (Continue a' b') ->
  halve g (a, b) = (a', b') /\ epsilon < Qabs (g ((a + b) / 2)).
Proof.
  intros H. destruct (bisection_body_continue _ _ _ _ _ _ H) as [Hp Hcase].
  split; [| exact Hp].
  unfold halve. cbn [fst snd].
  destruct Hcase as [(-> & -> & Hs) | (-> & -> & Hs)].
  - apply Qgt_bool_true in Hs. rewrite Hs. reflexivity.
  - apply Qgt_bool_false in Hs. rewrite Hs. reflexivity.
Qed.

(** A turn that returns finds [|f|] within [epsilon] at the midpoint. *)
Lemma bisection_body_break (g : Q -> Q) (epsilon a b p : Q) :
  bisection_body (real_fun g) a b epsilon = Return (Break p) ->
  p = (a + b) / 2 /\ Qabs (g p) <= epsilon.
Proof.
  rewrite bisection_body_real. cbv zeta.
  destruct (Qle_bool (Qabs (g ((a + b) / 2))) epsilon) eqn:E.
  - intros H. injection H as <-. split; [reflexivity | apply Qle_bool_iff, E].
  - destruct (Qgt_bool 0 (g a * g ((a + b) / 2))); discriminate.
Qed.

(** One more turn in front of an outcome. *)
Lemma bisection_outcome_step
    (g : Q -> Q) (epsilon a b a' b' : Q) (k : nat) (p : Q) :
  halve g (a, b) = (a', b') ->
  epsilon < Qabs (b - a) ->
  epsilon < Qabs (g ((a + b) / 2)) ->
  bisection_outcome g epsilon (a', b') k p ->
  bisection_outcome g epsilon (a, b) (S k) p.
Proof.
  intros Hh Hw Hm.
  assert (First : forall j,
    (forall i, (i < j)%nat -> goes_on g epsilon (a', b') i) ->
    forall i, (i < S j)%nat -> goes_on g epsilon (a, b) i).
  { intros j Hgo [| i] Hi.
    - split; [exact Hw | exact Hm].
    - unfold goes_on. cbn [bracket_after]. rewrite Hh. apply Hgo. lia. }
  intros [(j & -> & Hgo & Hwj & Hp & Hf) | (Hgo & Hwk & Hp)].
  - left. exists (S j). split; [reflexivity |].
    split; [apply First, Hgo |].
    cbn [bracket_after]. rewrite Hh. auto.
  - right. split; [apply First, Hgo |].
    cbn [bracket_after]. rewrite Hh. auto.
Qed.

(** With a width of at most [2^n * epsilon] the loop returns within [n]
    turns, it runs [j + 1] turns only if [2^j * epsilon] is still below the
    starting width, and what it returns is the outcome of the turns it ran. *)
Lemma bisection_while_returns (g : Q -> Q) (epsilon : Q) :
  0 < epsilon ->
  forall (n : nat) (a b : Q),
    Qabs (b - a) <= 2 ^ Z.of_nat n * epsilon ->
    exists (k : nat) (p : Q),
      (k <= n)%nat
      /\ (forall fuel, (k <= fuel)%nat ->
            bisection_while fuel (real_fun g) a b epsilon = (k, Return p))
      /\ (forall j, k = S j -> 2 ^ Z.of_nat j * epsilon < Qabs (b - a))
      /\ bisection_outcome g epsilon (a, b) k p.
Proof.
  intros He.
  assert (Exit : forall (n : nat) a b, Qabs (b - a) <= epsilon ->
    exists (k : nat) (p : Q),
      (k <= n)%nat
      /\ (forall fuel, (k <= fuel)%nat ->
            bisection_while fuel (real_fun g) a b epsilon = (k, Return p))
      /\ (forall j, k = S j -> 2 ^ Z.of_nat j * epsilon < Qabs (b - a))
      /\ bisection_outcome g epsilon (a, b) k p).
  { intros n a b H. exists O, ((a + b) / 2). repeat split.
    - lia.
    - intros fuel _. apply bisection_while_exit, H.
    - intros j Hj. discriminate Hj.
    - right. split; [intros i Hi; lia | split; [exact H | reflexivity]]. }
  induction n as [| n IH]; intros a b Hw.
  - apply Exit. change (2 ^ Z.of_nat 0) with 1 in Hw. lra.
  - destruct (Qlt_le_dec epsilon (Qabs (b - a))) as [Hin | Hout];
      [| apply Exit, Hout].
    rewrite Qpower_succ_nat in Hw.
    destruct (bisection_body (real_fun g) a b epsilon) as [[p | a' b'] | e |] eqn:Body.
    + destruct (bisection_body_break _ _ _ _ _ Body) as [Hp Hf].
      exists 1%nat, p. repeat split.
      * lia.
      * intros [| fuel] Hf'; [lia|].
        rewrite bisection_while_enter, Body by exact Hin. reflexivity.
      * intros j Hj. injection Hj as <-.
        change (2 ^ Z.of_nat 0) with 1. lra.
      * left. exists O. split; [reflexivity |].
        split; [intros i Hi; lia |].
        split; [exact Hin | split; [exact Hp | exact Hf]].
    + pose proof (bisection_body_halves _ _ _ _ _ _ Body) as Hhalf.
      destruct (bisection_body_halve _ _ _ _ _ _ Body) as [Hh Hm].
      destruct (IH a' b') as (k & p & Hk & Hrun & Hbound & Hres).
      { rewrite Hhalf. apply Qle_shift_div_r; lra. }
      exists (S k), p. repeat split.
      * lia.
      * intros [| fuel] Hf; [lia|].
        rewrite bisection_while_enter, Body by exact Hin.
        rewrite Hrun by lia. reflexivity.
      * intros j Hj. injection Hj as <-.
        destruct k as [| k'].
        -- change (2 ^ Z.of_nat 0) with 1. lra.
        -- specialize (Hbound k' eq_refl). rewrite Hhalf in Hbound.
           rewrite Qpower_succ_nat.
           set (t := 2 ^ Z.of_nat k' * epsilon) in *.
           setoid_replace (2 * 2 ^ Z.of_nat k' * epsilon) with (2 * t)
             by (unfold t; ring).
           clearbody t. rewrite Qhalf in Hbound. lra.
      * exact (bisection_outcome_step g epsilon a b a' b' k p Hh Hin Hm Hres).
    + exfalso. rewrite bisection_body_real in Body. cbv zeta in Body.
      destruct (Qle_bool (Qabs (g ((a + b) / 2))) epsilon);
        [|destruct (Qgt_bool 0 (g a * g ((a + b) / 2)))]; discriminate Body.
    + exfalso. rewrite bisection_body_real in Body. cbv zeta in Body.
      destruct (Qle_bool (Qabs (g ((a + b) / 2))) epsilon);
        [|destruct (Qgt_bool 0 (g a * g ((a + b) / 2)))]; discriminate Body.
Qed.

(** ** The claims on bisection *)

(** C5, at [bisection(lambda x: x, 0, 4, 0.5)]: the bracket [0, 4] satisfies
    [f(a) * f(b) <= 0] because [f(0) = 0]; the first turn finds
    [f(a) * f(p) = 0], which is not negative, and sets [a = p]; on the new
    bracket [2, 4] the product [f(a) * f(b)] is positive.  The call then
    returns [3.75], where [f] is [3.75]. *)
Theorem bisection_step_loses_bracket :
  identity 0 * identity 4 <= 0
  /\ bisection_body (real_fun identity) 0 4 (1 # 2)
     = Return (Continue ((0 + 4) / 2) 4)
  /\ 0 < identity ((0 + 4) / 2) * identity 4
  /\ exists p, bisection 10 (real_fun identity) 0 4 (1 # 2) = Return p
               /\ p == 15 # 4
               /\ 1 # 2 < Qabs (identity p).
Proof.
  split; [vm_compute; discriminate |].
  split; [vm_compute; reflexivity |].
  split; [vm_compute; reflexivity |].
  eexists. split; [vm_compute; reflexivity |].
  split; vm_compute; reflexivity.
Qed.

(** The test on the endpoints comes first for any callable: when [f(a)] and
    [f(b)] are real numbers with a positive product, [bisection] raises with
    no turn of the loop entered. *)
Lemma bisection_raises_before_loop
    (fuel : nat) (f : callable) (a b epsilon fa fb : Q) :
  call f a = Return (VScalar (SReal fa)) ->
  call f b = Return (VScalar (SReal fb)) ->
  0 < fa * fb ->
  bisection_run fuel f a b epsilon = (O, Raise bracket_error).
Proof.
  intros Ha Hb H. unfold bisection_run, same_sign. rewrite Ha, Hb.
  cbn [bind py_mul s_mul py_gt0]. apply Qgt_bool_true in H. rewrite H.
  reflexivity.
Qed.

(** C6: on a real function, [bisection] raises its [ValueError] exactly
    when [f(a) * f(b) > 0]; it does so with no turn of the loop entered and
    whatever the fuel, and it raises nothing else. *)
Theorem bisection_bracket_error (g : Q -> Q) (a b epsilon : Q) (fuel : nat) :
  (bisection fuel (real_fun g) a b epsilon = Raise bracket_error
   <-> 0 < g a * g b)
  /\ (0 < g a * g b ->
      bisection_iterations fuel (real_fun g) a b epsilon = O)
  /\ (forall e, bisection fuel (real_fun g) a b epsilon = Raise e ->
                e = bracket_error /\ 0 < g a * g b).
Proof.
  assert (Pos : 0 < g a * g b ->
    bisection_run fuel (real_fun g) a b epsilon = (O, Raise bracket_error)).
  { intros H. unfold bisection_run. rewrite same_sign_real.
    apply Qgt_bool_true in H. rewrite H. reflexivity. }
  assert (Neg : forall e,
    bisection fuel (real_fun g) a b epsilon = Raise e ->
    e = bracket_error /\ 0 < g a * g b).
  { intros e. unfold bisection, bisection_run. rewrite same_sign_real.
    destruct (Qgt_bool (g a * g b) 0) eqn:E.
    - cbn [snd]. intros H. injection H as <-.
      split; [reflexivity | apply Qgt_bool_true, E].
    - intros H. exfalso. exact (bisection_while_no_raise _ _ _ _ _ _ H). }
  split; [split | split].
  - intros H. apply (Neg _ H).
  - intros H. unfold bisection. rewrite (Pos H). reflexivity.
  - intros H. unfold bisection_iterations. rewrite (Pos H). reflexivity.
  - exact Neg.
Qed.

Lemma bisection_bracket_error_witness :
  0 < square_minus_8 3 * square_minus_8 4
  /\ bisection 0 (real_fun square_minus_8) 3 4 (1 # 100) = Raise bracket_error.
Proof.
  split; [reflexivity |].
  apply (proj1 (bisection_bracket_error square_minus_8 3 4 (1 # 100) 0)).
  reflexivity.
Defined.

(** C7 (amended): for a positive [epsilon] and a bracket with
    [f(a) * f(b) <= 0], the loop returns after a number [k] of turns that is
    at most the least [n] with [|b - a| <= 2^n * epsilon], that is at most
    the ceiling of [log2(|b - a| / epsilon)]: when [k >= 1],
    [2^(k-1) * epsilon < |b - a|].  Each turn that goes on halves the width.
    The value returned is the midpoint [p] of the bracket of the last turn,
    where [|f(p)| <= epsilon], or the midpoint of the bracket that the [k]
    turns left, which is no wider than [epsilon]; the brackets are those
    obtained from [a, b] by setting [b = p] when [f(a) * f(p) < 0] and
    [a = p] otherwise. *)
Theorem bisection_terminates (g : Q -> Q) (a b epsilon : Q) :
  0 < epsilon ->
  g a * g b <= 0 ->
  (exists (k : nat) (p : Q),
      (forall fuel, (k <= fuel)%nat ->
         bisection_run fuel (real_fun g) a b epsilon = (k, Return p))
      /\ (forall n : nat, Qabs (b - a) <= 2 ^ Z.of_nat n * epsilon -> (k <= n)%nat)
      /\ ((0 < k)%nat -> 2 ^ (Z.of_nat k - 1) * epsilon < Qabs (b - a))
      /\ bisection_outcome g epsilon (a, b) k p)
  /\ (forall a1 b1 a2 b2,
         bisection_body (real_fun g) a1 b1 epsilon = Return (Continue a2 b2) ->
         Qabs (b2 - a2) == Qabs (b1 - a1) / 2).
Proof.
  intros He Hab. split; [| intros; eapply bisection_body_halves; eassumption].
  destruct (width_covered (Qabs (b - a)) epsilon He) as [n0 Hn0].
  destruct (bisection_while_returns g epsilon He n0 a b Hn0)
    as (k & p & Hk & Hrun & Hbound & Hres).
  assert (Start : forall fuel,
    bisection_run fuel (real_fun g) a b epsilon
    = bisection_while fuel (real_fun g) a b epsilon).
  { intros fuel. unfold bisection_run. rewrite same_sign_real.
    apply Qgt_bool_false in Hab. rewrite Hab. reflexivity. }
  exists k, p. repeat split.
  - intros fuel Hf. rewrite Start. apply Hrun, Hf.
  - intros n Hn.
    destruct (bisection_while_returns g epsilon He n a b Hn)
      as (k' & p' & Hk' & Hrun' & _).
    specialize (Hrun (Nat.max k k') (Nat.le_max_l _ _)).
    specialize (Hrun' (Nat.max k k') (Nat.le_max_r _ _)).
    rewrite Hrun in Hrun'. injection Hrun' as -> _. exact Hk'.
  - intros Hpos. destruct k as [| j]; [lia|].
    replace (Z.of_nat (S j) - 1)%Z with (Z.of_nat j) by lia.
    apply Hbound. reflexivity.
  - exact Hres.
Qed.

Lemma bisection_terminates_witness :
  0 < 1 /\ square_minus_8 0 * square_minus_8 3 <= 0
  /\ exists (k : nat) (p : Q),
      (forall fuel, (k <= fuel)%nat ->
         bisection_run fuel (real_fun square_minus_8) 0 3 1 = (k, Return p))
      /\ (forall n : nat, Qabs (3 - 0) <= 2 ^ Z.of_nat n * 1 -> (k <= n)%nat)
      /\ ((0 < k)%nat -> 2 ^ (Z.of_nat k - 1) * 1 < Qabs (3 - 0))
      /\ bisection_outcome square_minus_8 1 (0, 3) k p.
Proof.
  split; [reflexivity | split; [vm_compute; discriminate |]].
  apply (bisection_terminates square_minus_8 0 3 1);
    [reflexivity | vm_compute; discriminate].
Defined.

(** C7 as stated fails: [bisection(lambda x: x*x - 8, 0, 3, 1)] takes two
    turns of the loop, which is more than [log2((3 - 0) / 1)], since
    [2^2 > 3]. *)
Lemma bisection_exceeds_log2_bound :
  0 < 1
  /\ square_minus_8 0 * square_minus_8 3 <= 0
  /\ bisection_run 2 (real_fun square_minus_8) 0 3 1
     = (2%nat, Return ((((0 + 3) / 2 + 3) / 2 + 3) / 2))
  /\ ~ 2 ^ Z.of_nat 2 <= (3 - 0) / 1.
Proof.
  split; [reflexivity |].
  split; [vm_compute; discriminate |].
  split; [vm_compute; reflexivity |].
  vm_compute. intros H. apply H. reflexivity.
Qed.

(** ** The claims on Newton's method *)

(** One turn of the loop evaluates [f(x)] and then [diff(f, x)]; an error
    of either is the outcome of [newton]. *)
Lemma newton_loop_derivative_raises
    (f : callable) (epsilon : Q) (turns : nat) (x : scalar) (fx : value) (e : exn) :
  f (VScalar x) = Return fx ->
  diff f x = Raise e ->
  newton_loop f epsilon (S turns) x = Raise e.
Proof.
  intros Hf Hd. cbn [newton_loop]. rewrite Hf, Hd. reflexivity.
Qed.

Lemma newton_loop_found
    (f : callable) (epsilon : Q) (turns : nat) (x : scalar) (fx : value)
    (dfx : scalar) :
  f (VScalar x) = Return fx ->
  diff f x = Return dfx ->
  abs_le fx epsilon = Return true ->
  newton_loop f epsilon (S turns) x = Return x.
Proof.
  intros Hf Hd Ha. cbn [newton_loop]. rewrite Hf, Hd. cbn [bind].
  rewrite Ha. reflexivity.
Qed.

(** C8 (amended): in a turn of the loop [fx = f(x)] and [dfx = diff(f, x)]
    are both evaluated before the test [abs(fx) <= epsilon]: with
    [|f(x)| <= epsilon] the turn returns [x] when the derivative at [x] can
    be evaluated, and raises the error of that evaluation when it cannot.
    So does [newton(f, epsilon, x0)] for a supplied [x0]. *)
Theorem newton_tests_after_derivative
    (fuel : nat) (f : callable) (epsilon : Q) (x : scalar) (fx : value) :
  f (VScalar x) = Return fx ->
  abs_le fx epsilon = Return true ->
  (forall dfx, diff f x = Return dfx ->
     (forall turns, newton_loop f epsilon (S turns) x = Return x)
     /\ newton fuel f epsilon (Some x) default_max_iter = Return x)
  /\ (forall e, diff f x = Raise e ->
     (forall turns, newton_loop f epsilon (S turns) x = Raise e)
     /\ newton fuel f epsilon (Some x) default_max_iter = Raise e).
Proof.
  intros Hf Ha. unfold newton, default_max_iter. cbn [bind].
  change (Z.to_nat 100) with (S 99). split.
  - intros dfx Hd.
    split; [intros turns |]; eapply newton_loop_found; eassumption.
  - intros e Hd.
    split; [intros turns |]; eapply newton_loop_derivative_raises; eassumption.
Qed.

Lemma newton_tests_after_derivative_witness :
  square_minus_4 (VScalar (SReal 2)) = Return (VScalar (SReal (2 * 2 - 4)))
  /\ abs_le (VScalar (SReal (2 * 2 - 4))) (1 # 100) = Return true
  /\ newton 0 square_minus_4 (1 # 100) (Some (SReal 2)) default_max_iter
     = Return (SReal 2).
Proof.
  split; [reflexivity | split; [reflexivity |]].
  apply (proj1 (newton_tests_after_derivative 0 square_minus_4 (1 # 100)
                  (SReal 2) (VScalar (SReal (2 * 2 - 4))) eq_refl eq_refl)
           (SReal (1 * 2 + 2 * 1))).
  reflexivity.
Defined.

(** C8 as stated fails: at [x0 = 0] the value [f(x0)] is [0], within any
    tolerance, but the derivative is evaluated first and raises, and so does
    [newton]. *)
Lemma newton_needs_derivative :
  over_zeroth_power double_square (VScalar (SReal 0))
  = Return (VScalar (SReal (0 / 1)))
  /\ abs_le (VScalar (SReal (0 / 1))) (1 # 100) = Return true
  /\ newton 0 (over_zeroth_power double_square) (1 # 100) (Some (SReal 0))
            default_max_iter
     = Raise division_by_zero
  /\ newton 0 (over_zeroth_power double_square) (1 # 100) (Some (SReal 0))
            default_max_iter
     <> Return (SReal 0).
Proof.
  split; [reflexivity | split; [reflexivity | split; [reflexivity |]]].
  discriminate.
Qed.

(** C9: in a turn where [|fx| > epsilon] and the derivative is zero, the
    turn is spent, nothing is raised by it, no Newton update is made and the
    loop goes on from [x + epsilon] with the turns that are left.  So with
    one turn left the call ends with the error of non-convergence and not
    with a division by zero; with more turns left the next turn evaluates
    [f] at [x + epsilon] and returns [x + epsilon] as soon as
    [|f(x + epsilon)| <= epsilon]; and a call of [newton] at such an [x0] is
    the call at [x0 + epsilon] with one turn less. *)
Theorem newton_stationary_point
    (f : callable) (epsilon : Q) (x : scalar) (fx : value) (dfx : scalar) :
  f (VScalar x) = Return fx ->
  diff f x = Return dfx ->
  abs_le fx epsilon = Return false ->
  s_eq0 dfx = true ->
  (forall turns,
      newton_loop f epsilon (S turns) x
      = newton_loop f epsilon turns (s_add x (SReal epsilon)))
  /\ newton_loop f epsilon 1 x = Raise not_converged
  /\ (forall turns fx' dfx',
      f (VScalar (s_add x (SReal epsilon))) = Return fx' ->
      diff f (s_add x (SReal epsilon)) = Return dfx' ->
      abs_le fx' epsilon = Return true ->
      newton_loop f epsilon (S (S turns)) x = Return (s_add x (SReal epsilon)))
  /\ (forall fuel max_iter, (1 <= max_iter)%Z ->
      newton fuel f epsilon (Some x) max_iter
      = newton fuel f epsilon (Some (s_add x (SReal epsilon))) (max_iter - 1)).
Proof.
  intros Hf Hd Ha Hz.
  assert (Step : forall turns,
    newton_loop f epsilon (S turns) x
    = newton_loop f epsilon turns (s_add x (SReal epsilon))).
  { intros turns. cbn [newton_loop]. rewrite Hf, Hd. cbn [bind].
    rewrite Ha. cbn [bind]. rewrite Hz. reflexivity. }
  split; [exact Step | split; [| split]].
  - rewrite Step. reflexivity.
  - intros turns fx' dfx' Hf' Hd' Ha'. rewrite Step.
    cbn [newton_loop]. rewrite Hf', Hd'. cbn [bind]. rewrite Ha'. reflexivity.
  - intros fuel max_iter Hm. unfold newton. cbn [bind].
    replace (Z.to_nat max_iter) with (S (Z.to_nat (max_iter - 1))) by lia.
    apply Step.
Qed.

Lemma newton_stationary_point_witness :
  two_minus_two_squares (VScalar (SReal 0))
  = Return (VScalar (SReal (-2 * 0 * 0 + 2)))
  /\ diff two_minus_two_squares (SReal 0)
     = Return (SReal (1 * -2 * 0 + 0 * -2 * 1))
  /\ abs_le (VScalar (SReal (-2 * 0 * 0 + 2))) 1 = Return false
  /\ s_eq0 (SReal (1 * -2 * 0 + 0 * -2 * 1)) = true
  /\ newton_loop two_minus_two_squares 1 1 (SReal 0) = Raise not_converged
  /\ newton_loop two_minus_two_squares 1 2 (SReal 0)
     = Return (s_add (SReal 0) (SReal 1)).
Proof.
  do 4 (split; [reflexivity |]).
  destruct (newton_stationary_point two_minus_two_squares 1 (SReal 0)
              (VScalar (SReal (-2 * 0 * 0 + 2)))
              (SReal (1 * -2 * 0 + 0 * -2 * 1))
              eq_refl eq_refl eq_refl eq_refl) as (_ & Hone & Hnext & _).
  split; [exact Hone |].
  apply (Hnext 0%nat (VScalar (SReal (-2 * (0 + 1) * (0 + 1) + 2)))
               (SReal ((1 * -2 * (0 + 1) + (0 + 1) * -2 * 1))));
    reflexivity.
Defined.

(** * Further properties *)

(** ** The algebra of DualNumber *)

Lemma re_s_add (a b : scalar) : re_part (s_add a b) == re_part a + re_part b.
Proof. destruct a, b; simpl; ring. Qed.

Lemma im_s_add (a b : scalar) : im_part (s_add a b) == im_part a + im_part b.
Proof. destruct a, b; simpl; ring. Qed.

Lemma re_s_sub (a b : scalar) : re_part (s_sub a b) == re_part a - re_part b.
Proof. destruct a, b; simpl; ring. Qed.

Lemma im_s_sub (a b : scalar) : im_part (s_sub a b) == im_part a - im_part b.
Proof. destruct a, b; simpl; ring. Qed.

Lemma re_s_mul (a b : scalar) :
  re_part (s_mul a b) == re_part a * re_part b - im_part a * im_part b.
Proof. destruct a, b; simpl; ring. Qed.

Lemma im_s_mul (a b : scalar) :
  im_part (s_mul a b) == re_part a * im_part b + im_part a * re_part b.
Proof. destruct a, b; simpl; ring. Qed.

Ltac parts :=
  unfold d_eqv, s_eqv; cbn [real dual __add__ __sub__ __mul__];
  repeat rewrite ?re_s_add, ?im_s_add, ?re_s_sub, ?im_s_sub, ?re_s_mul, ?im_s_mul;
  cbn [re_part im_part].

(** Multiplication of dual numbers is commutative, and a plain factor gives
    the same DualNumber on either side. *)
Theorem mul_commutes (x y : DualNumber) (k : scalar) :
  d_eqv (__mul__ x (VDual y)) (__mul__ y (VDual x))
  /\ py_mul (VScalar k) (VDual x) = py_mul (VDual x) (VScalar k).
Proof.
  split; [| reflexivity].
  parts. repeat split; ring.
Qed.

(** In [+], [-] and [*] a plain right operand [k] acts as
    [DualNumber(k, 0)]. *)
Theorem scalar_is_constant_dual (x : DualNumber) (k : scalar) :
  d_eqv (__add__ x (VScalar k)) (__add__ x (VDual (mkDualNumber k (SReal 0))))
  /\ d_eqv (__sub__ x (VScalar k)) (__sub__ x (VDual (mkDualNumber k (SReal 0))))
  /\ d_eqv (__mul__ x (VScalar k)) (__mul__ x (VDual (mkDualNumber k (SReal 0)))).
Proof.
  repeat split; parts; ring.
Qed.

(** ** The derivative of the reciprocal *)

Lemma real_nonzero (c : Q) : ~ c == 0 -> s_eq0 (SReal c) = false.
Proof. intros H. apply Qeq_bool_false, H. Qed.

(** [diff(lambda x: 1 / x, a)] at a real [a]: at zero it raises the
    program's [ZeroDivisionError]; at a nonzero [a] whose square [a ** 2] is
    evaluated to [a * a] it returns [-1 / a^2]; at a nonzero [a] whose square
    is evaluated to zero it raises Python's [ZeroDivisionError]. *)
Theorem diff_reciprocal (square : scalar -> outcome scalar) (a : Q) :
  (a == 0 -> diff (reciprocal square) (SReal a) = Raise division_by_zero)
  /\ (forall c2, ~ a == 0 -> square (SReal a) = Return (SReal c2) ->
        c2 == a * a ->
        exists d, diff (reciprocal square) (SReal a) = Return (SReal d)
                  /\ d == - (1 / (a * a)))
  /\ (forall c2, ~ a == 0 -> square (SReal a) = Return (SReal c2) ->
        c2 == 0 ->
        diff (reciprocal square) (SReal a)
        = Raise (ZeroDivisionError "division by zero")).
Proof.
  unfold diff, reciprocal, py_truediv, __rtruediv__, s_div. cbn [real dual].
  repeat split.
  - intros Ha. apply Qeq_bool_iff in Ha. cbn [s_eq0]. rewrite Ha. reflexivity.
  - intros c2 Ha Hsq Hc. rewrite (real_nonzero a Ha). cbn [bind]. rewrite Hsq.
    assert (Hc2 : ~ c2 == 0).
    { rewrite Hc. intros E. apply Ha, Qsquare_zero, E. }
    cbn [bind]. rewrite (real_nonzero c2 Hc2). cbn.
    eexists. split; [reflexivity |]. rewrite Hc. field. exact Ha.
  - intros c2 Ha Hsq Hc. rewrite (real_nonzero a Ha). cbn [bind]. rewrite Hsq.
    apply Qeq_bool_iff in Hc. cbn [bind s_eq0]. rewrite Hc. reflexivity.
Qed.

Lemma diff_reciprocal_witness :
  ~ 2 == 0
  /\ double_square (SReal 2) = Return (SReal (2 * 2))
  /\ exists d, diff (reciprocal double_square) (SReal 2) = Return (SReal d)
               /\ d == - (1 / (2 * 2)).
Proof.
  split; [intros H; discriminate H |].
  split; [vm_compute; reflexivity |].
  apply (proj1 (proj2 (diff_reciprocal double_square 2)) (2 * 2)).
  - intros H; discriminate H.
  - vm_compute; reflexivity.
  - reflexivity.
Defined.

(** ** Powers of a real dual number *)

Lemma pow_state_at_step (a b : Q) (j : nat) (r : DualNumber) :
  pow_state_at a b j r ->
  pow_state_at a b (S j) (__mul__ r (VDual (mkDualNumber (SReal a) (SReal b)))).
Proof.
  intros (x & y & -> & Hx & Hy).
  exists (x * a), (y * a + x * b). split; [reflexivity |].
  rewrite (Qpower_succ_nat a j), Hx, Hy.
  rewrite (Nat2Z.inj_succ (S j)), <- Z.add_1_r, inject_Z_plus.
  split; ring.
Qed.

Lemma pow_loop_state_at (a b : Q) (t j : nat) (r : DualNumber) :
  pow_state_at a b j r ->
  pow_state_at a b (t + j) (pow_loop (mkDualNumber (SReal a) (SReal b)) t r).
Proof.
  revert j r. induction t as [| t IH]; intros j r H.
  - exact H.
  - cbn [pow_loop]. replace (S t + j)%nat with (t + S j)%nat by lia.
    apply IH, pow_state_at_step, H.
Qed.

(** The power rule with the chain rule: for [n >= 1] the power
    [DualNumber(a, b) ** n] of a real dual number has the value [a^n] and the
    derivative [n * a^(n-1) * b]. *)
Theorem pow_real_dual (n : Z) (a b : Q) :
  (1 <= n)%Z ->
  exists x y,
    __pow__ (mkDualNumber (SReal a) (SReal b)) n
    = mkDualNumber (SReal x) (SReal y)
    /\ x == a ^ n
    /\ y == inject_Z n * a ^ (n - 1) * b.
Proof.
  intros Hn. unfold __pow__. cbn [real dual].
  destruct (pow_loop_state_at a b (Z.to_nat (n - 1)) 0
              (mkDualNumber (SReal a) (SReal b))) as (x & y & E & Hx & Hy).
  { exists a, b. split; [reflexivity |]. simpl. split; ring. }
  exists x, y. split; [exact E |].
  rewrite Nat.add_0_r in Hx, Hy.
  rewrite Hx, Hy, <- Qpower_succ_nat.
  rewrite !Nat2Z.inj_succ, Z2Nat.id by lia.
  replace (Z.succ (n - 1)) with n by lia.
  split; reflexivity.
Qed.

Lemma pow_real_dual_witness :
  (1 <= 3)%Z
  /\ exists x y,
      __pow__ (mkDualNumber (SReal 2) (SReal 5)) 3
      = mkDualNumber (SReal x) (SReal y)
      /\ x == 2 ^ 3
      /\ y == inject_Z 3 * 2 ^ (3 - 1) * 5.
Proof.
  split; [lia | apply (pow_real_dual 3 2 5); lia].
Defined.

(** ** The example function of root.py *)

(** On a float [foo] is the polynomial [-1000 + x^2 - x^3 - 1], and [diff]
    gives its derivative [2x - 3x^2]: the reflected addition, the two
    subtractions and the powers compose to the exact derivative. *)
Theorem diff_foo (a : Q) :
  (exists v, foo (VScalar (SReal a)) = Return (VScalar (SReal v))
             /\ v == -1000 + a * a - a * a * a - 1)
  /\ (exists d, diff foo (SReal a) = Return (SReal d)
                /\ d == 2 * a - 3 * (a * a)).
Proof.
  split.
  - eexists. split; [reflexivity |]. ring.
  - eexists. split; [reflexivity |]. ring.
Qed.

(** ** The elementary functions *)

Lemma s_mul_one_l (s : scalar) : s_eqv (s_mul (SReal 1) s) s.
Proof.
  unfold s_eqv. rewrite re_s_mul, im_s_mul. cbn [re_part im_part].
  split; ring.
Qed.

Lemma s_mul_minus_one_l (s : scalar) :
  s_eqv (s_mul (s_neg (SReal 1)) s) (s_neg s).
Proof.
  unfold s_eqv. rewrite re_s_mul, im_s_mul.
  destruct s; cbn [s_neg re_part im_part]; split; ring.
Qed.

Section ElementaryFacts.

Variables exp log cos sin absolute sign : scalar -> scalar.
Variable times_sign : scalar -> scalar -> outcome scalar.

(** The derivatives of the three total elementary functions at any point
    [x], real or complex: [exp x] for [Dexp], [cos x] for [Dsin] and
    [- sin x] for [Dcos]. *)
Theorem diff_exp_sin_cos (x : scalar) :
  (exists d, diff (constructor_call (Dexp exp)) x = Return d
             /\ s_eqv d (exp x))
  /\ (exists d, diff (constructor_call (Dsin cos sin)) x = Return d
                /\ s_eqv d (cos x))
  /\ (exists d, diff (constructor_call (Dcos cos sin)) x = Return d
                /\ s_eqv d (s_neg (sin x))).
Proof.
  repeat split; eexists; (split; [reflexivity |]); cbn [dual real].
  - apply s_mul_one_l.
  - apply s_mul_one_l.
  - apply s_mul_minus_one_l.
Qed.

(** [Dabs] tests zero first, so a complex zero gets the message of the
    origin; any other complex value is refused as complex; on a nonzero real
    no test fails and the result is [(absolute a, b * sign a)] when numpy
    gives the product; and [Dabs] returns in no other case. *)
Theorem Dabs_domain :
  (forall d, s_eq0 (real d) = true ->
             Dabs absolute sign times_sign d = Raise abs_undefined_at_zero)
  /\ (forall re im b, s_eq0 (SComplex re im) = false ->
        Dabs absolute sign times_sign (mkDualNumber (SComplex re im) b)
        = Raise abs_of_complex)
  /\ (forall a b, ~ a == 0 ->
        Dabs absolute sign times_sign (mkDualNumber (SReal a) b)
        = (p <- times_sign b (sign (SReal a)) ;;
           Return (mkDualNumber (absolute (SReal a)) p)))
  /\ (forall d q, Dabs absolute sign times_sign d = Return q ->
        exists a, real d = SReal a /\ ~ a == 0).
Proof.
  repeat split.
  - intros d H. unfold Dabs. rewrite H. reflexivity.
  - intros re im b H. unfold Dabs. cbn [real]. rewrite H. reflexivity.
  - intros a b H. unfold Dabs. cbn [real dual].
    rewrite (real_nonzero a H). reflexivity.
  - intros [[a | re im] b] q; unfold Dabs; cbn [real dual is_complex].
    + destruct (s_eq0 (SReal a)) eqn:E; [discriminate |].
      intros _. exists a. split; [reflexivity | apply Qeq_bool_false, E].
    + destruct (s_eq0 (SComplex re im)); discriminate.
Qed.

(** [Dexp(Dlog(d))] gives back a real dual number with a positive value,
    value and derivative, wherever [exp] undoes [log]. *)
Theorem Dexp_Dlog (a b : Q) :
  0 < a ->
  exp (log (SReal a)) = SReal a ->
  exists r, Dlog log (mkDualNumber (SReal a) (SReal b)) = Return r
            /\ d_eqv (Dexp exp r) (mkDualNumber (SReal a) (SReal b)).
Proof.
  intros Ha Hinv.
  assert (Hnz : ~ a == 0) by lra.
  eexists. split.
  - unfold Dlog, s_div. cbn [real dual is_complex s_le0 bind].
    assert (E : Qle_bool a 0 = false) by (apply Qle_bool_false, Ha).
    rewrite E. cbn [bind]. rewrite (real_nonzero a Hnz). reflexivity.
  - unfold d_eqv, s_eqv, Dexp. cbn [real dual]. rewrite Hinv. cbn.
    repeat split; try reflexivity. field. exact Hnz.
Qed.

End ElementaryFacts.

Lemma Dabs_domain_witness :
  s_eq0 (real (mkDualNumber (SComplex 0 0) (SReal 1))) = true
  /\ Dabs (fun s => s) (fun s => s) (fun x y => Return (s_mul x y))
          (mkDualNumber (SComplex 0 0) (SReal 1))
     = Raise abs_undefined_at_zero.
Proof.
  split; [reflexivity |].
  apply (proj1 (Dabs_domain (fun s => s) (fun s => s)
                  (fun x y => Return (s_mul x y)))).
  reflexivity.
Defined.

Lemma Dexp_Dlog_witness :
  0 < 2
  /\ (fun s : scalar => s) ((fun s : scalar => s) (SReal 2)) = SReal 2
  /\ exists r,
      Dlog (fun s => s) (mkDualNumber (SReal 2) (SReal 3)) = Return r
      /\ d_eqv (Dexp (fun s => s) r) (mkDualNumber (SReal 2) (SReal 3)).
Proof.
  split; [reflexivity | split; [reflexivity |]].
  apply (Dexp_Dlog (fun s => s) (fun s => s) 2 3); reflexivity.
Defined.

(** ** More on bisection *)

Lemma between_midpoint (a b : Q) : between a b ((a + b) / 2).
Proof.
  unfold between. rewrite Qhalf.
  destruct (Qlt_le_dec a b); [left | right]; split; lra.
Qed.

Lemma between_left_half (a b p : Q) :
  between a ((a + b) / 2) p -> between a b p.
Proof.
  unfold between. rewrite Qhalf. intros H.
  destruct (Qlt_le_dec a b); [left | right]; destruct H; split; lra.
Qed.

Lemma between_right_half (a b p : Q) :
  between ((a + b) / 2) b p -> between a b p.
Proof.
  unfold between. rewrite Qhalf. intros H.
  destruct (Qlt_le_dec a b); [left | right]; destruct H; split; lra.
Qed.

Section BisectionLoop.

Variable g : Q -> Q.
Variable epsilon : Q.

(** Whatever the loop returns lies in the bracket it started from. *)
Lemma bisection_while_between (fuel : nat) (a b p : Q) :
  snd (bisection_while fuel (real_fun g) a b epsilon) = Return p ->
  between a b p.
Proof.
  revert a b. induction fuel as [| fuel IH]; intros a b;
    cbn [bisection_while].
  - destruct (Qgt_bool (Qabs (b - a)) epsilon); cbn [snd]; [discriminate |].
    intros H. injection H as <-. apply between_midpoint.
  - destruct (Qgt_bool (Qabs (b - a)) epsilon); cbn [snd];
      [| intros H; injection H as <-; apply between_midpoint].
    rewrite bisection_body_real. cbv zeta.
    destruct (Qle_bool (Qabs (g ((a + b) / 2))) epsilon);
      [cbn [snd]; intros H; injection H as <-; apply between_midpoint |].
    destruct (Qgt_bool 0 (g a * g ((a + b) / 2))).
    + specialize (IH a ((a + b) / 2)).
      destruct (bisection_while fuel (real_fun g) a ((a + b) / 2) epsilon).
      intros H. apply between_left_half, IH, H.
    + specialize (IH ((a + b) / 2) b).
      destruct (bisection_while fuel (real_fun g) ((a + b) / 2) b epsilon).
      intros H. apply between_right_half, IH, H.
Qed.

(** With a negative [epsilon] neither exit of the loop can be taken: every
    unfolding uses up all its fuel. *)
Lemma bisection_while_negative_epsilon (fuel : nat) (a b : Q) :
  epsilon < 0 ->
  bisection_while fuel (real_fun g) a b epsilon = (fuel, OutOfFuel).
Proof.
  intros He. revert a b. induction fuel as [| fuel IH]; intros a b;
    cbn [bisection_while].
  - assert (W : Qgt_bool (Qabs (b - a)) epsilon = true).
    { apply Qgt_bool_true. pose proof (Qabs_nonneg (b - a)). lra. }
    rewrite W. reflexivity.
  - assert (W : Qgt_bool (Qabs (b - a)) epsilon = true).
    { apply Qgt_bool_true. pose proof (Qabs_nonneg (b - a)). lra. }
    rewrite W, bisection_body_real. cbv zeta.
    assert (E : Qle_bool (Qabs (g ((a + b) / 2))) epsilon = false).
    { apply Qle_bool_false. pose proof (Qabs_nonneg (g ((a + b) / 2))). lra. }
    rewrite E.
    destruct (Qgt_bool 0 (g a * g ((a + b) / 2))); rewrite IH; reflexivity.
Qed.

End BisectionLoop.

(** With a negative [epsilon] and a valid bracket, [bisection] never
    returns and never raises: every turn of the loop leads to another one. *)
Theorem bisection_negative_epsilon_diverges
    (fuel : nat) (g : Q -> Q) (a b epsilon : Q) :
  epsilon < 0 ->
  g a * g b <= 0 ->
  bisection fuel (real_fun g) a b epsilon = OutOfFuel
  /\ bisection_iterations fuel (real_fun g) a b epsilon = fuel.
Proof.
  intros He Hsign. unfold bisection, bisection_iterations, bisection_run.
  rewrite same_sign_real. apply Qgt_bool_false in Hsign. rewrite Hsign.
  rewrite (bisection_while_negative_epsilon g epsilon fuel a b He).
  split; reflexivity.
Qed.

Lemma bisection_negative_epsilon_diverges_witness :
  -1 < 0
  /\ square_minus_8 0 * square_minus_8 3 <= 0
  /\ bisection 50 (real_fun square_minus_8) 0 3 (-1) = OutOfFuel
  /\ bisection_iterations 50 (real_fun square_minus_8) 0 3 (-1) = 50%nat.
Proof.
  split; [reflexivity |].
  split; [vm_compute; discriminate |].
  apply (bisection_negative_epsilon_diverges 50 square_minus_8 0 3 (-1));
    [reflexivity | vm_compute; discriminate].
Defined.

(** ** More on Newton's method *)

(** A value returned by the loop passed the test [abs(f(x)) <= epsilon]. *)
Lemma newton_loop_sound (f : callable) (epsilon : Q) (turns : nat) (x r : scalar) :
  newton_loop f epsilon turns x = Return r ->
  exists fr, f (VScalar r) = Return fr /\ abs_le fr epsilon = Return true.
Proof.
  revert x. induction turns as [| turns IH]; intros x; cbn [newton_loop].
  - discriminate.
  - destruct (f (VScalar x)) as [fx | e |] eqn:Hf; cbn [bind]; try discriminate.
    destruct (diff f x) as [dfx | e |]; cbn [bind]; try discriminate.
    destruct (abs_le fx epsilon) as [[|] | e |] eqn:Ha; cbn [bind];
      try discriminate.
    + intros H. injection H as <-. exists fx. split; assumption.
    + destruct (s_eq0 dfx); [apply IH |].
      destruct fx as [k | d]; [| discriminate].
      destruct (s_div k dfx); cbn [bind]; try discriminate. apply IH.
Qed.

(** Whatever the starting point (given, or estimated by [bisection]) and
    the number of turns, a value [x] returned by [newton] satisfies
    [|f(x)| <= epsilon]. *)
Theorem newton_sound
    (fuel : nat) (f : callable) (epsilon : Q) (x0 : option scalar)
    (max_iter : Z) (r : scalar) :
  newton fuel f epsilon x0 max_iter = Return r ->
  exists fr, f (VScalar r) = Return fr /\ abs_le fr epsilon = Return true.
Proof.
  unfold newton.
  destruct x0 as [x |]; cbn [bind].
  - apply newton_loop_sound.
  - destruct (bisection fuel f (- (10000000000 # 1)) (10000000000 # 1) (1 # 100));
      cbn [bind]; try discriminate.
    apply newton_loop_sound.
Qed.

Lemma newton_sound_witness :
  newton 0 (linear 2 (-6)) (1 # 100) (Some (SReal 0)) 5
  = Return (SReal (0 - (2 * 0 + -6) / (1 * 2)))
  /\ exists fr,
      linear 2 (-6) (VScalar (SReal (0 - (2 * 0 + -6) / (1 * 2)))) = Return fr
      /\ abs_le fr (1 # 100) = Return true.
Proof.
  split; [vm_compute; reflexivity |].
  apply (newton_sound 0 (linear 2 (-6)) (1 # 100) (Some (SReal 0)) 5).
  vm_compute. reflexivity.
Defined.

(** Without [x0], a function whose values at [-1e10] and [1e10] are real
    numbers of the same sign makes [newton] raise the [ValueError] of
    [bisection], whatever [epsilon] and [max_iter]: the loop of Newton is not
    entered and its [RuntimeError] is not the error raised. *)
Theorem newton_default_guess_needs_bracket
    (fuel : nat) (f : callable) (epsilon : Q) (max_iter : Z) (fa fb : Q) :
  call f (- (10000000000 # 1)) = Return (VScalar (SReal fa)) ->
  call f (10000000000 # 1) = Return (VScalar (SReal fb)) ->
  0 < fa * fb ->
  newton fuel f epsilon None max_iter = Raise bracket_error.
Proof.
  intros Ha Hb H. unfold newton, bisection.
  rewrite (bisection_raises_before_loop fuel f _ _ _ fa fb Ha Hb H).
  reflexivity.
Qed.

Lemma newton_default_guess_needs_bracket_witness :
  newton 0 square_plus_1 (1 # 100) None 100 = Raise bracket_error.
Proof.
  apply (newton_default_guess_needs_bracket 0 square_plus_1 (1 # 100) 100
           ((- (10000000000 # 1)) * (- (10000000000 # 1)) + 1)
           ((10000000000 # 1) * (10000000000 # 1) + 1));
    reflexivity.
Defined.

(** The estimate of the root that [newton] asks of [bisection] when [x0]
    is missing costs at most 41 turns of the bisection loop on a real
    function that changes sign between [-1e10] and [1e10], and lies between
    them. *)
Theorem default_guess_within_41_turns (g : Q -> Q) :
  g (- (10000000000 # 1)) * g (10000000000 # 1) <= 0 ->
  exists (k : nat) (p : Q),
    (k <= 41)%nat
    /\ (forall fuel, (k <= fuel)%nat ->
          bisection_run fuel (real_fun g)
            (- (10000000000 # 1)) (10000000000 # 1) (1 # 100)
          = (k, Return p))
    /\ between (- (10000000000 # 1)) (10000000000 # 1) p.
Proof.
  intros Hsign.
  destruct (bisection_while_returns g (1 # 100) eq_refl 41
              (- (10000000000 # 1)) (10000000000 # 1))
    as (k & p & Hk & Hrun & _).
  { vm_compute. discriminate. }
  assert (Start : forall fuel,
    bisection_run fuel (real_fun g)
      (- (10000000000 # 1)) (10000000000 # 1) (1 # 100)
    = bisection_while fuel (real_fun g)
        (- (10000000000 # 1)) (10000000000 # 1) (1 # 100)).
  { intros fuel. unfold bisection_run. rewrite same_sign_real.
    apply Qgt_bool_false in Hsign. rewrite Hsign. reflexivity. }
  exists k, p. split; [exact Hk | split].
  - intros fuel Hf. rewrite Start. apply Hrun, Hf.
  - apply (bisection_while_between g (1 # 100) k).
    rewrite (Hrun k (Nat.le_refl k)). reflexivity.
Qed.

Lemma default_guess_within_41_turns_witness :
  identity (- (10000000000 # 1)) * identity (10000000000 # 1) <= 0
  /\ exists (k : nat) (p : Q),
    (k <= 41)%nat
    /\ (forall fuel, (k <= fuel)%nat ->
          bisection_run fuel (real_fun identity)
            (- (10000000000 # 1)) (10000000000 # 1) (1 # 100)
          = (k, Return p))
    /\ between (- (10000000000 # 1)) (10000000000 # 1) p.
Proof.
  split; [vm_compute; discriminate |].
  apply (default_guess_within_41_turns identity). vm_compute. discriminate.
Defined.
